(** * Verification of the questionnaire scorer (src/logic.cpp)

    The program receives ten survey answers on its command line, checks that
    each lies in 0..3, reverse-scores questions 5 and 9 and prints the total.
    This development embeds [hitung_skor] and [main] and proves the
    properties stated in the specification about them. *)

From Stdlib Require Import ZArith List String Ascii Bool Lia DecimalString.
Import ListNotations.
Local Open Scope string_scope.
Local Open Scope Z_scope.

(** ** Machine integers and undefined behaviour *)

Definition INT_MIN : Z := -2147483648.
Definition INT_MAX : Z := 2147483647.

(** [in_int z]: [z] is representable in the 32-bit [int] of the program. *)
Definition in_int (z : Z) : bool := (INT_MIN <=? z) && (z <=? INT_MAX).

(** What the C++ abstract machine leaves undefined in the code modelled here. *)
Inductive undefined_behaviour : Type :=
| FlagsOutOfBounds (i : nat)    (* REVERSE_FLAGS[i] with i >= REVERSE_FLAGS.size() *)
| VectorOutOfBounds (i : nat)   (* jawaban[i] with i >= jawaban.size() *)
| ArgvOutOfBounds (i : nat)     (* argv[i] with i >= argc *)
| SignedOverflow.               (* int arithmetic leaving the int range *)

(** Result of running a piece of the program. *)
Inductive outcome (A : Type) : Type :=
| Returned (a : A)
| Undefined (u : undefined_behaviour).
Arguments Returned {A} a.
Arguments Undefined {A} u.

Definition obind {A B : Type} (c : outcome A) (k : A -> outcome B) : outcome B :=
  match c with
  | Returned a => k a
  | Undefined u => Undefined u
  end.

Declare Scope outcome_scope.
Delimit Scope outcome_scope with outcome.
Notation "x <- c ;; k" := (obind c (fun x => k))
  (at level 61, c at next level, right associativity) : outcome_scope.

(** [a + b] and [a - b] on [int]: signed overflow is undefined. *)
Definition int_add (a b : Z) : outcome Z :=
  if in_int (a + b) then Returned (a + b) else Undefined SignedOverflow.
Definition int_sub (a b : Z) : outcome Z :=
  if in_int (a - b) then Returned (a - b) else Undefined SignedOverflow.

(** ** The scorer *)

(** Q5 (index 4) and Q9 (index 8) are reverse-scored. *)
Definition REVERSE_FLAGS : list bool :=
  [false; false; false; false; true;
   false; false; false; true; false].

(** The range test [v < 0 || v > 3] used by both validation passes. *)
Definition out_of_range_03 (v : Z) : bool := (v <? 0) || (v >? 3).

(** The [for] loop of [hitung_skor]: [n] iterations remain, [i] is the
    loop index and [total] the accumulator. *)
Fixpoint hitung_skor_loop (jawaban : list Z) (n i : nat) (total : Z)
  : outcome Z :=
  match n with
  | O => Returned total
  | S n' =>
    match nth_error jawaban i with
    | None => Undefined (VectorOutOfBounds i)
    | Some v =>
      if out_of_range_03 v then Returned (-1)
      else
        match nth_error REVERSE_FLAGS i with
        | None => Undefined (FlagsOutOfBounds i)
        | Some flag =>
          (score <- (if flag then int_sub 3 v else Returned v) ;;
           total' <- int_add total score ;;
           hitung_skor_loop jawaban n' (S i) total')%outcome
        end
    end
  end.

Definition hitung_skor (jawaban : list Z) : outcome Z :=
  hitung_skor_loop jawaban (List.length jawaban) 0 0.

(** *** The loop over the remaining answers

    [score_rest i l total] is the loop of [hitung_skor] seen from the
    answers [l] that remain at index [i]. *)
Fixpoint score_rest (i : nat) (l : list Z) (total : Z) : outcome Z :=
  match l with
  | [] => Returned total
  | v :: rest =>
    if out_of_range_03 v then Returned (-1)
    else
      match nth_error REVERSE_FLAGS i with
      | None => Undefined (FlagsOutOfBounds i)
      | Some flag =>
        (score <- (if flag then int_sub 3 v else Returned v) ;;
         total' <- int_add total score ;;
         score_rest (S i) rest total')%outcome
      end
  end.

(** ** The specification's scoring formula *)

(** Contribution of position [i] as the specification words it:
    [3 - v] if [i] is 4 or 8, else [v]. *)
Definition contribution (i : nat) (v : Z) : Z :=
  if ((i =? 4) || (i =? 8))%nat then 3 - v else v.

(** Sum of the contributions of the elements of [l], the first of which
    sits at position [i]. *)
Fixpoint sum_contributions (i : nat) (l : list Z) : Z :=
  match l with
  | [] => 0
  | v :: rest => contribution i v + sum_contributions (S i) rest
  end.

Definition spec_score (jawaban : list Z) : Z := sum_contributions 0 jawaban.

(** ** Standard streams *)

Record streams : Type := { stdout : string; stderr : string }.

Definition no_output : streams := {| stdout := ""; stderr := "" |}.

(** Code that writes to the streams and may run into undefined behaviour. *)
Definition io (A : Type) : Type := streams -> outcome (A * streams).

Definition ret {A : Type} (a : A) : io A := fun w => Returned (a, w).

Definition bind {A B : Type} (c : io A) (k : A -> io B) : io B :=
  fun w =>
    match c w with
    | Returned (a, w') => k a w'
    | Undefined u => Undefined u
    end.

Definition lift {A : Type} (c : outcome A) : io A :=
  fun w =>
    match c with
    | Returned a => Returned (a, w)
    | Undefined u => Undefined u
    end.

Declare Scope io_scope.
Delimit Scope io_scope with io.
Notation "x <- c ;; k" := (bind c (fun x => k))
  (at level 61, c at next level, right associativity) : io_scope.
Notation "c ;; k" := (bind c (fun _ => k))
  (at level 61, right associativity) : io_scope.

(** [cout << s] and [cerr << s]. *)
Definition cout (s : string) : io unit :=
  fun w => Returned (tt, {| stdout := stdout w ++ s; stderr := stderr w |}).
Definition cerr (s : string) : io unit :=
  fun w => Returned (tt, {| stdout := stdout w; stderr := stderr w ++ s |}).

(** [endl]: a line feed. *)
Definition endl : string := String (ascii_of_nat 10) "".

(** [operator<<] on an [int]: decimal digits, with a minus sign if negative. *)
Definition show (z : Z) : string := NilZero.string_of_int (Z.to_int z).

(** ** std::stoi

    The library function [std::stoi(str)] with its default base 10, as the
    C++ standard defines it through [strtol]: leading white space is
    skipped, an optional sign is read, then the longest run of decimal
    digits; what follows the digits is ignored.  With no digit it throws
    [std::invalid_argument], with a value outside [int] it throws
    [std::out_of_range]. *)

Inductive exception : Type := invalid_argument | out_of_range.

Definition isspace (c : ascii) : bool :=
  let n := nat_of_ascii c in ((n =? 32) || ((9 <=? n) && (n <=? 13)))%nat.

Definition isdigit (c : ascii) : bool :=
  let n := nat_of_ascii c in ((48 <=? n) && (n <=? 57))%nat.

Definition digit_value (c : ascii) : Z := Z.of_nat (nat_of_ascii c) - 48.

Fixpoint skip_space (s : string) : string :=
  match s with
  | String c rest => if isspace c then skip_space rest else s
  | EmptyString => s
  end.

Fixpoint read_digits (s : string) (acc : Z) : Z :=
  match s with
  | String c rest =>
    if isdigit c then read_digits rest (10 * acc + digit_value c) else acc
  | EmptyString => acc
  end.

Definition starts_with_digit (s : string) : bool :=
  match s with
  | String c _ => isdigit c
  | EmptyString => false
  end.

Definition stoi (s : string) : exception + Z :=
  let s1 := skip_space s in
  let '(negative, s2) :=
    match s1 with
    | String "-" rest => (true, rest)
    | String "+" rest => (false, rest)
    | _ => (false, s1)
    end in
  if starts_with_digit s2 then
    let magnitude := read_digits s2 0 in
    let value := if negative then - magnitude else magnitude in
    if in_int value then inr value else inl out_of_range
  else inl invalid_argument.

(** ** main *)

Definition msg_arity (received : Z) : string :=
  "C++ ERROR: Harus menerima 10 jawaban sebagai argumen, diterima: "
  ++ show received ++ "." ++ endl.

Definition msg_parse (i : Z) (arg : string) : string :=
  "C++ ERROR: Argumen ke-" ++ show i ++ " (" ++ arg
  ++ ") bukan angka valid." ++ endl.

Definition msg_range (v : Z) : string :=
  "C++ ERROR: Nilai jawaban di luar rentang 0-3 terdeteksi: "
  ++ show v ++ "." ++ endl.

Definition msg_internal : string :=
  "C++ ERROR: Kesalahan input tidak terduga dalam hitung_skor." ++ endl.

(** The parsing loop [for (int i = 1; i < argc; ++i)]: [n] iterations
    remain.  [inl code] means that [main] returned [code] from inside the
    loop, [inr jawaban] that the loop ran to its end. *)
Fixpoint parse_loop (argv : list string) (n i : nat) (jawaban : list Z)
  : io (Z + list Z) :=
  match n with
  | O => ret (inr jawaban)
  | S n' =>
    match nth_error argv i with
    | None => lift (Undefined (ArgvOutOfBounds i))
    | Some arg =>
      match stoi arg with
      | inr x => parse_loop argv n' (S i) (jawaban ++ [x])%list
      | inl _ => (cerr (msg_parse (Z.of_nat i) arg) ;; ret (inl 1))%io
      end
    end
  end.

(** The second validation pass [for (int v : jawaban)]: [Some code] means
    that [main] returned [code] from inside the loop. *)
Fixpoint rescan (jawaban : list Z) : io (option Z) :=
  match jawaban with
  | [] => ret None
  | v :: rest =>
    if out_of_range_03 v then (cerr (msg_range v) ;; ret (Some 1))%io
    else rescan rest
  end.

(** [main]: [argv] is the whole argument vector, program name first, and
    [argc] its length.  The result is the exit status. *)
Definition main (argv : list string) : io Z :=
  let argc := Z.of_nat (List.length argv) in
  if negb (argc =? 11) then
    (cerr (msg_arity (argc - 1)) ;; ret 1)%io
  else
    (parsed <- parse_loop argv (List.length argv - 1) 1 [] ;;
     match parsed with
     | inl code => ret code
     | inr jawaban =>
       total_skor <- lift (hitung_skor jawaban) ;;
       if total_skor =? -1 then
         found <- rescan jawaban ;;
         match found with
         | Some code => ret code
         | None => cerr msg_internal ;; ret 1
         end
       else
         cout (show total_skor ++ endl) ;; ret 0
     end)%io.

(** ** Integer literals

    What the specification calls an argument that is a base-10 integer: an
    optional sign followed by one or more decimal digits and nothing else. *)

Fixpoint all_digits (s : string) : bool :=
  match s with
  | String c rest => isdigit c && all_digits rest
  | EmptyString => true
  end.

Definition integer_literal (s : string) : bool :=
  let digits :=
    match s with
    | String "-" rest => rest
    | String "+" rest => rest
    | _ => s
    end in
  starts_with_digit digits && all_digits digits.

(** ** The scorer on a machine without bounds checks

    The runs of the loop of [hitung_skor] as a compiled program makes them:
    [operator[]] does not check its index, so a read past the end of
    [REVERSE_FLAGS] yields whatever bit lies there, which the program does
    not control and which may differ from run to run.  A configuration is
    the loop index, the accumulator and the standard streams, the state of
    the program outside the function. *)

(** [reads_flag i flag]: the read [REVERSE_FLAGS[i]] may yield [flag]. *)
Definition reads_flag (i : nat) (flag : bool) : Prop :=
  match nth_error REVERSE_FLAGS i with
  | Some b => flag = b
  | None => True
  end.

Inductive hitung_skor_run (jawaban : list Z)
  : nat -> Z -> streams -> outcome Z -> streams -> Prop :=
| run_exit : forall i total w,
    (List.length jawaban <= i)%nat ->
    hitung_skor_run jawaban i total w (Returned total) w
| run_invalid : forall i total w v,
    nth_error jawaban i = Some v ->
    v < 0 \/ v > 3 ->
    hitung_skor_run jawaban i total w (Returned (-1)) w
| run_overflow : forall i total w v flag,
    nth_error jawaban i = Some v ->
    0 <= v <= 3 ->
    reads_flag i flag ->
    in_int (total + (if flag then 3 - v else v)) = false ->
    hitung_skor_run jawaban i total w (Undefined SignedOverflow) w
| run_iter : forall i total w v flag r w',
    nth_error jawaban i = Some v ->
    0 <= v <= 3 ->
    reads_flag i flag ->
    in_int (total + (if flag then 3 - v else v)) = true ->
    hitung_skor_run jawaban (S i) (total + (if flag then 3 - v else v)) w r w' ->
    hitung_skor_run jawaban i total w r w'.

(** ** Outcomes of main

    The ways a run of main can end, by the branch of the source that
    returns. *)

Inductive main_result (argv : list string) : Z * streams -> Prop :=
| result_arity :
    Z.of_nat (List.length argv) - 1 <> 10 ->
    main_result argv
      (1, {| stdout := "";
             stderr := msg_arity (Z.of_nat (List.length argv) - 1) |})
| result_parse : forall prog pre a post xs e,
    argv = prog :: (pre ++ a :: post)%list ->
    List.length (pre ++ a :: post) = 10%nat ->
    Forall2 (fun a x => stoi a = inr x) pre xs ->
    stoi a = inl e ->
    main_result argv
      (1, {| stdout := "";
             stderr := msg_parse (Z.of_nat (S (List.length pre))) a |})
| result_range : forall prog args pre v post,
    argv = prog :: args ->
    List.length args = 10%nat ->
    Forall2 (fun a x => stoi a = inr x) args (pre ++ v :: post) ->
    Forall (fun x => 0 <= x <= 3) pre ->
    v < 0 \/ v > 3 ->
    main_result argv (1, {| stdout := ""; stderr := msg_range v |})
| result_score : forall prog args xs,
    argv = prog :: args ->
    List.length args = 10%nat ->
    Forall2 (fun a x => stoi a = inr x) args xs ->
    Forall (fun x => 0 <= x <= 3) xs ->
    main_result argv
      (0, {| stdout := show (spec_score xs) ++ endl; stderr := "" |}).

(** ** Sanity checks of the embedding *)

Example stoi_plain : stoi "3" = inr 3.
Proof. reflexivity. Qed.

Example stoi_negative : stoi "-12" = inr (-12).
Proof. reflexivity. Qed.

Example stoi_trailing_text : stoi "3abc" = inr 3.
Proof. reflexivity. Qed.

Example stoi_leading_space : stoi " +2" = inr 2.
Proof. reflexivity. Qed.

Example stoi_no_digit : stoi "abc" = inl invalid_argument.
Proof. reflexivity. Qed.

Example stoi_empty : stoi "" = inl invalid_argument.
Proof. reflexivity. Qed.

Example stoi_too_large : stoi "2147483648" = inl out_of_range.
Proof. reflexivity. Qed.

Example stoi_int_min : stoi "-2147483648" = inr INT_MIN.
Proof. reflexivity. Qed.

Example main_runs :
  main ["logic"; "1"; "2"; "0"; "3"; "1"; "0"; "2"; "3"; "3"; "1"] no_output
  = Returned (0, {| stdout := "14" ++ endl; stderr := "" |}).
Proof. reflexivity. Qed.

(** ** Basic facts *)

Lemma out_of_range_03_true (v : Z) :
  out_of_range_03 v = true <-> v < 0 \/ v > 3.
Proof.
  unfold out_of_range_03.
  rewrite orb_true_iff, Z.ltb_lt, Z.gtb_ltb, Z.ltb_lt. lia.
Qed.

Lemma out_of_range_03_false (v : Z) :
  out_of_range_03 v = false <-> 0 <= v <= 3.
Proof.
  unfold out_of_range_03.
  rewrite orb_false_iff, Z.ltb_ge, Z.gtb_ltb, Z.ltb_ge. lia.
Qed.

Lemma in_int_true (z : Z) : in_int z = true <-> INT_MIN <= z <= INT_MAX.
Proof.
  unfold in_int. rewrite andb_true_iff, !Z.leb_le. tauto.
Qed.

Lemma in_int_small (z : Z) : 0 <= z <= 1000 -> in_int z = true.
Proof.
  intros H. apply in_int_true. unfold INT_MIN, INT_MAX. lia.
Qed.

Lemma REVERSE_FLAGS_length : List.length REVERSE_FLAGS = 10%nat.
Proof. reflexivity. Qed.

(** The constant table agrees with the positions the specification names. *)
Lemma REVERSE_FLAGS_lookup (i : nat) :
  (i < 10)%nat ->
  nth_error REVERSE_FLAGS i = Some ((i =? 4) || (i =? 8))%nat.
Proof.
  intros H.
  do 10 (destruct i as [|i]; [reflexivity|]). lia.
Qed.

Lemma REVERSE_FLAGS_beyond (i : nat) :
  (10 <= i)%nat -> nth_error REVERSE_FLAGS i = None.
Proof.
  intros H. apply nth_error_None. rewrite REVERSE_FLAGS_length. exact H.
Qed.

(** The score of one valid answer, as the loop body computes it. *)
Lemma score_of_valid (flag : bool) (v : Z) :
  0 <= v <= 3 ->
  (if flag then int_sub 3 v else Returned v)
  = Returned (if flag then 3 - v else v).
Proof.
  intros H. destruct flag; [|reflexivity].
  unfold int_sub. rewrite in_int_small by lia. reflexivity.
Qed.

(** ** The loop and the remaining answers *)

Lemma skipn_cons_inv {A : Type} (l : list A) (i : nat) (x : A) (rest : list A) :
  skipn i l = x :: rest -> nth_error l i = Some x /\ skipn (S i) l = rest.
Proof.
  revert i. induction l as [|y l IH]; intros i H.
  - destruct i; discriminate.
  - destruct i as [|i]; simpl in H.
    + inversion H; subst. split; reflexivity.
    + apply IH in H. exact H.
Qed.

Lemma hitung_skor_loop_rest (jawaban l : list Z) :
  forall i total,
    skipn i jawaban = l ->
    hitung_skor_loop jawaban (List.length l) i total = score_rest i l total.
Proof.
  induction l as [|v rest IH]; intros i total H; simpl.
  - reflexivity.
  - apply skipn_cons_inv in H. destruct H as [Hnth Hskip].
    rewrite Hnth.
    destruct (out_of_range_03 v); [reflexivity|].
    destruct (nth_error REVERSE_FLAGS i) as [flag|]; [|reflexivity].
    destruct (if flag then int_sub 3 v else Returned v) as [score|u];
      simpl; [|reflexivity].
    destruct (int_add total score) as [total'|u]; simpl; [|reflexivity].
    apply IH. exact Hskip.
Qed.

Lemma hitung_skor_rest (jawaban : list Z) :
  hitung_skor jawaban = score_rest 0 jawaban 0.
Proof.
  unfold hitung_skor. apply hitung_skor_loop_rest. reflexivity.
Qed.

(** The contributions of valid answers are between 0 and 3 each. *)
Lemma contribution_bounds (i : nat) (v : Z) :
  0 <= v <= 3 -> 0 <= contribution i v <= 3.
Proof.
  intros H. unfold contribution.
  destruct ((i =? 4) || (i =? 8))%nat; lia.
Qed.

Lemma sum_contributions_bounds (l : list Z) :
  forall i,
    Forall (fun v => 0 <= v <= 3) l ->
    0 <= sum_contributions i l <= 3 * Z.of_nat (List.length l).
Proof.
  induction l as [|v rest IH]; intros i H.
  - simpl. lia.
  - inversion H as [|? ? Hv Hrest]; subst.
    specialize (IH (S i) Hrest).
    pose proof (contribution_bounds i v Hv).
    cbn [sum_contributions List.length]. lia.
Qed.

(** On valid answers within the table the loop adds up the contributions. *)
Lemma score_rest_valid (l : list Z) :
  forall i total,
    Forall (fun v => 0 <= v <= 3) l ->
    (i + List.length l <= 10)%nat ->
    0 <= total <= 3 * Z.of_nat i ->
    score_rest i l total = Returned (total + sum_contributions i l).
Proof.
  induction l as [|v rest IH]; intros i total H Hlen Htot.
  - simpl. f_equal. lia.
  - inversion H as [|? ? Hv Hrest]; subst.
    cbn [List.length] in Hlen.
    cbn [score_rest sum_contributions].
    rewrite (proj2 (out_of_range_03_false v) Hv).
    rewrite REVERSE_FLAGS_lookup by lia.
    rewrite score_of_valid by exact Hv.
    fold (contribution i v).
    pose proof (contribution_bounds i v Hv) as Hc.
    cbn [obind]. unfold int_add.
    rewrite in_int_small by lia.
    cbn [obind]. rewrite IH; [f_equal; lia | exact Hrest | lia | lia].
Qed.

(** Reaching an out-of-range answer inside the table ends the loop
    with the sentinel. *)
Lemma score_rest_invalid (pre : list Z) :
  forall i total v post,
    Forall (fun x => 0 <= x <= 3) pre ->
    v < 0 \/ v > 3 ->
    (i + List.length pre <= 10)%nat ->
    0 <= total <= 3 * Z.of_nat i ->
    score_rest i (pre ++ v :: post) total = Returned (-1).
Proof.
  induction pre as [|x pre IH]; intros i total v post H Hv Hlen Htot.
  - cbn [app score_rest].
    rewrite (proj2 (out_of_range_03_true v) Hv). reflexivity.
  - inversion H as [|? ? Hx Hpre]; subst.
    cbn [List.length] in Hlen.
    cbn [app score_rest].
    rewrite (proj2 (out_of_range_03_false x) Hx).
    rewrite REVERSE_FLAGS_lookup by lia.
    rewrite score_of_valid by exact Hx.
    fold (contribution i x).
    pose proof (contribution_bounds i x Hx) as Hc.
    cbn [obind]. unfold int_add.
    rewrite in_int_small by lia.
    cbn [obind]. apply IH; [exact Hpre | exact Hv | lia | lia].
Qed.

(** The accumulator never goes negative, so the sentinel can only come
    from the early return. *)
Lemma score_rest_nonneg (l : list Z) :
  forall i total r,
    0 <= total ->
    score_rest i l total = Returned r ->
    (0 <= r /\ Forall (fun v => 0 <= v <= 3) l)
    \/ (r = -1 /\ Exists (fun v => v < 0 \/ v > 3) l).
Proof.
  induction l as [|v rest IH]; intros i total r Htot H.
  - simpl in H. inversion H; subst. left. split; [lia | constructor].
  - cbn [score_rest] in H.
    destruct (out_of_range_03 v) eqn:Hv.
    + inversion H; subst. right. split; [reflexivity|].
      apply Exists_cons_hd. apply out_of_range_03_true. exact Hv.
    + apply out_of_range_03_false in Hv.
      destruct (nth_error REVERSE_FLAGS i) as [flag|]; [|discriminate].
      rewrite score_of_valid in H by exact Hv. cbn [obind] in H.
      unfold int_add in H.
      destruct (in_int (total + (if flag then 3 - v else v))); [|discriminate].
      cbn [obind] in H.
      apply IH in H; [|destruct flag; lia].
      destruct H as [[Hr Hall] | [Hr Hex]].
      * left. split; [exact Hr | constructor; assumption].
      * right. split; [exact Hr | apply Exists_cons_tl; exact Hex].
Qed.

(** Any list either holds only valid answers or has a first invalid one. *)
Lemma first_out_of_range (l : list Z) :
  Forall (fun v => 0 <= v <= 3) l
  \/ exists pre v post,
       l = (pre ++ v :: post)%list
       /\ Forall (fun x => 0 <= x <= 3) pre
       /\ (v < 0 \/ v > 3).
Proof.
  induction l as [|x l IH].
  - left. constructor.
  - destruct (out_of_range_03 x) eqn:Hx.
    + right. exists [], x, l. split; [reflexivity|]. split; [constructor|].
      apply out_of_range_03_true. exact Hx.
    + apply out_of_range_03_false in Hx.
      destruct IH as [Hall | (pre & v & post & -> & Hpre & Hv)].
      * left. constructor; assumption.
      * right. exists (x :: pre), v, post.
        split; [reflexivity|]. split; [constructor; assumption | exact Hv].
Qed.

Lemma valid_not_invalid (l : list Z) :
  Forall (fun v => 0 <= v <= 3) l ->
  Exists (fun v => v < 0 \/ v > 3) l -> False.
Proof.
  intros Hall Hex. apply Exists_exists in Hex.
  destruct Hex as (v & Hin & Hv).
  rewrite Forall_forall in Hall. specialize (Hall v Hin). lia.
Qed.

(** ** Runs on the machine without bounds checks *)






(** Past the table the runs part: on eleven zeros the read of
    [REVERSE_FLAGS[10]] decides between 6 and 9. *)
Example hitung_skor_run_eleven_zeros (w : streams) :
  hitung_skor_run [0; 0; 0; 0; 0; 0; 0; 0; 0; 0; 0] 0 0 w (Returned 6) w
  /\ hitung_skor_run [0; 0; 0; 0; 0; 0; 0; 0; 0; 0; 0] 0 0 w (Returned 9) w.
Proof.
  split.
  - do 10 (eapply run_iter;
           [reflexivity | lia | exact eq_refl | reflexivity | cbn [Z.add]]).
    eapply (run_iter _ _ _ _ 0 false);
      [reflexivity | lia | exact I | reflexivity | cbn [Z.add]].
    apply run_exit. cbn [List.length]. lia.
  - do 10 (eapply run_iter;
           [reflexivity | lia | exact eq_refl | reflexivity | cbn [Z.add]]).
    eapply (run_iter _ _ _ _ 0 true);
      [reflexivity | lia | exact I | reflexivity | cbn [Z.add]].
    apply run_exit. cbn [List.length]. lia.
Qed.

(** ** The loops of main *)

(** All remaining arguments parse: the loop collects their values. *)
Lemma parse_loop_all (args : list string) :
  forall argv i jawaban xs w,
    skipn i argv = args ->
    Forall2 (fun a x => stoi a = inr x) args xs ->
    parse_loop argv (List.length args) i jawaban w
    = Returned (inr (jawaban ++ xs)%list, w).
Proof.
  induction args as [|a args IH]; intros argv i jawaban xs w Hskip Hall.
  - inversion Hall; subst. simpl. rewrite app_nil_r. reflexivity.
  - inversion Hall as [|? x ? xs' Ha Hrest]; subst.
    apply skipn_cons_inv in Hskip. destruct Hskip as [Hnth Hskip].
    cbn [List.length parse_loop]. rewrite Hnth, Ha.
    rewrite (IH argv (S i) (jawaban ++ [x])%list xs' w Hskip Hrest).
    rewrite <- app_assoc. reflexivity.
Qed.

(** The first argument that fails to parse ends main with its message. *)
Lemma parse_loop_first_failure (pre : list string) :
  forall argv i jawaban xs a post e w,
    skipn i argv = (pre ++ a :: post)%list ->
    Forall2 (fun a x => stoi a = inr x) pre xs ->
    stoi a = inl e ->
    parse_loop argv (List.length (pre ++ a :: post)) i jawaban w
    = Returned (inl 1,
                {| stdout := stdout w;
                   stderr := stderr w
                             ++ msg_parse (Z.of_nat (i + List.length pre)) a |}).
Proof.
  induction pre as [|b pre IH]; intros argv i jawaban xs a post e w Hskip Hall Ha.
  - cbn [app] in *. apply skipn_cons_inv in Hskip. destruct Hskip as [Hnth _].
    cbn [List.length parse_loop]. rewrite Hnth, Ha.
    rewrite Nat.add_0_r. reflexivity.
  - inversion Hall as [|? x ? xs' Hb Hrest]; subst.
    cbn [app] in *. apply skipn_cons_inv in Hskip. destruct Hskip as [Hnth Hskip].
    cbn [List.length parse_loop]. rewrite Hnth, Hb.
    rewrite (IH argv (S i) (jawaban ++ [x])%list xs' a post e w Hskip Hrest Ha).
    rewrite Nat.add_succ_comm. reflexivity.
Qed.

(** Arguments either all parse or have a first one that does not. *)
Lemma first_parse_failure (args : list string) :
  (exists xs, Forall2 (fun a x => stoi a = inr x) args xs)
  \/ exists pre a post xs e,
       args = (pre ++ a :: post)%list
       /\ Forall2 (fun a x => stoi a = inr x) pre xs
       /\ stoi a = inl e.
Proof.
  induction args as [|a args IH].
  - left. exists []. constructor.
  - destruct (stoi a) as [e|x] eqn:Ha.
    + right. exists [], a, args, [], e.
      split; [reflexivity|]. split; [constructor | exact Ha].
    + destruct IH as [[xs Hall] | (pre & b & post & xs & e & -> & Hpre & Hb)].
      * left. exists (x :: xs). constructor; assumption.
      * right. exists (a :: pre), b, post, (x :: xs), e.
        split; [reflexivity|]. split; [constructor; assumption | exact Hb].
Qed.

(** The loop pushes one value per iteration. *)
Lemma parse_loop_length (argv : list string) (n : nat) :
  forall i acc w jawaban w',
    parse_loop argv n i acc w = Returned (inr jawaban, w') ->
    List.length jawaban = (List.length acc + n)%nat.
Proof.
  induction n as [|n IH]; intros i acc w jawaban w' H.
  - simpl in H. inversion H; subst. lia.
  - cbn [parse_loop] in H.
    destruct (nth_error argv i) as [arg|]; [|discriminate].
    destruct (stoi arg) as [e|x].
    + discriminate.
    + apply IH in H. rewrite length_app in H. simpl in H. lia.
Qed.

(** The second pass stops at the first out-of-range value. *)
Lemma rescan_first (pre : list Z) :
  forall v post w,
    Forall (fun x => 0 <= x <= 3) pre ->
    v < 0 \/ v > 3 ->
    rescan (pre ++ v :: post) w
    = Returned (Some 1,
                {| stdout := stdout w; stderr := stderr w ++ msg_range v |}).
Proof.
  induction pre as [|x pre IH]; intros v post w Hpre Hv.
  - cbn [app rescan].
    rewrite (proj2 (out_of_range_03_true v) Hv). reflexivity.
  - inversion Hpre as [|? ? Hx Hrest]; subst.
    cbn [app rescan].
    rewrite (proj2 (out_of_range_03_false x) Hx).
    apply IH; assumption.
Qed.

(** ** The scorer on ten answers *)

Lemma hitung_skor_valid (jawaban : list Z) :
  (List.length jawaban <= 10)%nat ->
  Forall (fun v => 0 <= v <= 3) jawaban ->
  hitung_skor jawaban = Returned (spec_score jawaban).
Proof.
  intros Hlen Hall. rewrite hitung_skor_rest.
  rewrite score_rest_valid; [reflexivity | exact Hall | lia | lia].
Qed.

Lemma hitung_skor_invalid (pre post : list Z) (v : Z) :
  (List.length pre <= 10)%nat ->
  Forall (fun x => 0 <= x <= 3) pre ->
  v < 0 \/ v > 3 ->
  hitung_skor (pre ++ v :: post) = Returned (-1).
Proof.
  intros Hlen Hpre Hv. rewrite hitung_skor_rest.
  apply score_rest_invalid; [exact Hpre | exact Hv | lia | lia].
Qed.

Lemma spec_score_bounds (jawaban : list Z) :
  Forall (fun v => 0 <= v <= 3) jawaban ->
  0 <= spec_score jawaban <= 3 * Z.of_nat (List.length jawaban).
Proof.
  intros Hall. apply sum_contributions_bounds. exact Hall.
Qed.

(** ** The four ways main ends *)

(** The call of the scorer from main neither reads nor writes the streams. *)
Lemma hitung_skor_leaves_streams (jawaban : list Z) (w w' : streams) (r : Z) :
  lift (hitung_skor jawaban) w = Returned (r, w') ->
  hitung_skor jawaban = Returned r /\ w' = w.
Proof.
  unfold lift. destruct (hitung_skor jawaban) as [r0|u]; intros H.
  - inversion H; subst. split; reflexivity.
  - discriminate.
Qed.

Lemma main_arity (argv : list string) (w : streams) :
  Z.of_nat (List.length argv) <> 11 ->
  main argv w
  = Returned (1, {| stdout := stdout w;
                    stderr := stderr w
                              ++ msg_arity (Z.of_nat (List.length argv) - 1) |}).
Proof.
  intros H. unfold main.
  apply Z.eqb_neq in H. rewrite H. reflexivity.
Qed.

Lemma main_ten_arguments (prog : string) (args : list string) :
  List.length args = 10%nat ->
  main (prog :: args)
  = (parsed <- parse_loop (prog :: args) (List.length args) 1 [] ;;
     match parsed with
     | inl code => ret code
     | inr jawaban =>
       total_skor <- lift (hitung_skor jawaban) ;;
       if total_skor =? -1 then
         found <- rescan jawaban ;;
         match found with
         | Some code => ret code
         | None => cerr msg_internal ;; ret 1
         end
       else
         cout (show total_skor ++ endl) ;; ret 0
     end)%io.
Proof.
  intros Hlen. unfold main.
  cbn [List.length]. rewrite Hlen. reflexivity.
Qed.

Lemma main_parse_failure (prog : string) (pre post : list string)
      (a : string) (xs : list Z) (e : exception) (w : streams) :
  List.length (pre ++ a :: post) = 10%nat ->
  Forall2 (fun a x => stoi a = inr x) pre xs ->
  stoi a = inl e ->
  main (prog :: pre ++ a :: post) w
  = Returned (1, {| stdout := stdout w;
                    stderr := stderr w
                              ++ msg_parse (Z.of_nat (S (List.length pre))) a |}).
Proof.
  intros Hlen Hpre Ha.
  rewrite (main_ten_arguments prog _ Hlen). unfold bind at 1.
  rewrite (parse_loop_first_failure pre (prog :: pre ++ a :: post) 1 []
             xs a post e w eq_refl Hpre Ha).
  reflexivity.
Qed.

Lemma main_out_of_range (prog : string) (args : list string)
      (pre post : list Z) (v : Z) (w : streams) :
  List.length args = 10%nat ->
  Forall2 (fun a x => stoi a = inr x) args (pre ++ v :: post) ->
  Forall (fun x => 0 <= x <= 3) pre ->
  v < 0 \/ v > 3 ->
  main (prog :: args) w
  = Returned (1, {| stdout := stdout w; stderr := stderr w ++ msg_range v |}).
Proof.
  intros Hlen Hargs Hpre Hv.
  rewrite (main_ten_arguments prog _ Hlen). unfold bind at 1.
  rewrite (parse_loop_all args (prog :: args) 1 [] _ w eq_refl Hargs).
  cbn [app]. unfold bind at 1, lift.
  apply Forall2_length in Hargs. rewrite length_app in Hargs.
  rewrite hitung_skor_invalid by (assumption || lia).
  cbn [Z.eqb Pos.eqb]. unfold bind at 1.
  rewrite rescan_first by assumption.
  reflexivity.
Qed.

Lemma main_success (prog : string) (args : list string) (xs : list Z)
      (w : streams) :
  List.length args = 10%nat ->
  Forall2 (fun a x => stoi a = inr x) args xs ->
  Forall (fun x => 0 <= x <= 3) xs ->
  main (prog :: args) w
  = Returned (0, {| stdout := stdout w ++ show (spec_score xs) ++ endl;
                    stderr := stderr w |}).
Proof.
  intros Hlen Hargs Hall.
  rewrite (main_ten_arguments prog _ Hlen). unfold bind at 1.
  rewrite (parse_loop_all args (prog :: args) 1 [] _ w eq_refl Hargs).
  cbn [app]. unfold bind at 1, lift.
  apply Forall2_length in Hargs.
  rewrite hitung_skor_valid by (assumption || lia).
  pose proof (spec_score_bounds xs Hall) as Hb.
  destruct (spec_score xs =? -1) eqn:Heq.
  - apply Z.eqb_eq in Heq. lia.
  - reflexivity.
Qed.

(** Every run of main ends in one of the four ways of [main_result]. *)
Lemma main_cases (argv : list string) :
  exists res, main argv no_output = Returned res /\ main_result argv res.
Proof.
  destruct (Z.eq_dec (Z.of_nat (List.length argv)) 11) as [Hargc | Hargc].
  - destruct argv as [|prog args]; [discriminate|].
    assert (Hlen : List.length args = 10%nat) by (cbn [List.length] in Hargc; lia).
    destruct (first_parse_failure args)
      as [[xs Hxs] | (pre & a & post & xs & e & -> & Hpre & Ha)].
    + destruct (first_out_of_range xs)
        as [Hall | (pre & v & post & -> & Hpre & Hv)].
      * eexists. split.
        -- apply (main_success prog args xs no_output Hlen Hxs Hall).
        -- eapply result_score; eauto.
      * eexists. split.
        -- apply (main_out_of_range prog args pre post v no_output
                    Hlen Hxs Hpre Hv).
        -- eapply result_range; eauto.
    + eexists. split.
      * apply (main_parse_failure prog pre post a xs e no_output Hlen Hpre Ha).
      * eapply result_parse; eauto.
  - eexists. split.
    + apply (main_arity argv no_output Hargc).
    + apply result_arity. lia.
Qed.

(** The specification's sum written out for ten answers. *)
Lemma spec_score_ten (v0 v1 v2 v3 v4 v5 v6 v7 v8 v9 : Z) :
  spec_score [v0; v1; v2; v3; v4; v5; v6; v7; v8; v9]
  = v0 + v1 + v2 + v3 + (3 - v4) + v5 + v6 + v7 + (3 - v8) + v9.
Proof.
  unfold spec_score. cbn [sum_contributions]. unfold contribution.
  cbn [Nat.eqb orb]. lia.
Qed.

(** The error messages all start with the program's prefix; none is empty
    and only the fallback message continues with "Kesalahan". *)
Lemma msg_arity_not_internal (n : Z) : msg_arity n <> msg_internal.
Proof. unfold msg_arity, msg_internal. cbn [append]. discriminate. Qed.

Lemma msg_parse_not_internal (i : Z) (a : string) :
  msg_parse i a <> msg_internal.
Proof. unfold msg_parse, msg_internal. cbn [append]. discriminate. Qed.

Lemma msg_range_not_internal (v : Z) : msg_range v <> msg_internal.
Proof. unfold msg_range, msg_internal. cbn [append]. discriminate. Qed.

Lemma msg_arity_not_empty (n : Z) : msg_arity n <> "".
Proof. unfold msg_arity. cbn [append]. discriminate. Qed.

Lemma msg_parse_not_empty (i : Z) (a : string) : msg_parse i a <> "".
Proof. unfold msg_parse. cbn [append]. discriminate. Qed.

Lemma msg_range_not_empty (v : Z) : msg_range v <> "".
Proof. unfold msg_range. cbn [append]. discriminate. Qed.

(** * The claims of the specification *)

(** C1. For every response vector of exactly ten integers, each in 0..3,
    [hitung_skor] returns the sum over the ten positions of the
    contributions, [3 - v] at positions 4 and 8 and [v] elsewhere, and this
    total lies between 0 and 30. *)
Theorem hitung_skor_sums_contributions (jawaban : list Z) :
  List.length jawaban = 10%nat ->
  Forall (fun v => 0 <= v <= 3) jawaban ->
  hitung_skor jawaban = Returned (spec_score jawaban)
  /\ 0 <= spec_score jawaban <= 30.
Proof.
  intros Hlen Hall. split.
  - apply hitung_skor_valid; [lia | exact Hall].
  - pose proof (spec_score_bounds jawaban Hall) as Hb.
    rewrite Hlen in Hb. lia.
Qed.

Lemma hitung_skor_sums_contributions_witness :
  hitung_skor [1; 2; 0; 3; 1; 0; 2; 3; 3; 1]
  = Returned (1 + 2 + 0 + 3 + (3 - 1) + 0 + 2 + 3 + (3 - 3) + 1).
Proof.
  rewrite <- spec_score_ten.
  apply (hitung_skor_sums_contributions [1; 2; 0; 3; 1; 0; 2; 3; 3; 1]).
  - reflexivity.
  - repeat constructor; lia.
Defined.

(** C2. For every run with ten arguments that all parse, where at least
    one parsed value lies outside 0..3, the program writes the range error
    citing the first such value from the left to standard error, exits
    with status 1 and writes nothing to standard output. *)
Theorem main_reports_first_out_of_range
        (prog : string) (args : list string) (pre post : list Z) (v : Z) :
  List.length args = 10%nat ->
  Forall2 (fun a x => stoi a = inr x) args (pre ++ v :: post) ->
  Forall (fun x => 0 <= x <= 3) pre ->
  v < 0 \/ v > 3 ->
  main (prog :: args) no_output
  = Returned (1, {| stdout := ""; stderr := msg_range v |}).
Proof.
  intros Hlen Hargs Hpre Hv.
  apply (main_out_of_range prog args pre post v no_output Hlen Hargs Hpre Hv).
Qed.

Lemma main_reports_first_out_of_range_witness :
  main ["logic"; "0"; "1"; "4"; "2"; "3"; "0"; "1"; "2"; "3"; "0"] no_output
  = Returned
      (1, {| stdout := "";
             stderr := "C++ ERROR: Nilai jawaban di luar rentang 0-3 terdeteksi: 4."
                       ++ endl |}).
Proof.
  apply (main_reports_first_out_of_range "logic"
           ["0"; "1"; "4"; "2"; "3"; "0"; "1"; "2"; "3"; "0"]
           [0; 1] [2; 3; 0; 1; 2; 3; 0] 4).
  - reflexivity.
  - repeat constructor.
  - repeat constructor; lia.
  - lia.
Defined.

(** With several values out of range the leftmost one is cited. *)
Example main_two_out_of_range :
  main ["logic"; "0"; "1"; "-5"; "2"; "3"; "0"; "7"; "2"; "3"; "0"] no_output
  = Returned
      (1, {| stdout := "";
             stderr := "C++ ERROR: Nilai jawaban di luar rentang 0-3 terdeteksi: -5."
                       ++ endl |}).
Proof. reflexivity. Qed.

(** C3. For every run whose number of arguments after the program name
    differs from 10, the program writes the arity error with the number
    received to standard error, exits with status 1 and writes nothing to
    standard output. *)
Theorem main_rejects_wrong_arity (argv : list string) :
  Z.of_nat (List.length argv) - 1 <> 10 ->
  main argv no_output
  = Returned (1, {| stdout := "";
                    stderr := msg_arity (Z.of_nat (List.length argv) - 1) |}).
Proof.
  intros H. apply (main_arity argv no_output). lia.
Qed.

Lemma main_rejects_wrong_arity_witness :
  main ["logic"; "0"; "1"; "2"; "3"; "0"; "1"; "2"; "3"; "0"] no_output
  = Returned
      (1, {| stdout := "";
             stderr := "C++ ERROR: Harus menerima 10 jawaban sebagai argumen, diterima: 9."
                       ++ endl |}).
Proof.
  apply (main_rejects_wrong_arity
           ["logic"; "0"; "1"; "2"; "3"; "0"; "1"; "2"; "3"; "0"]).
  cbn [List.length]. lia.
Defined.

Example main_eleven_arguments :
  main ["logic"; "0"; "1"; "2"; "3"; "0"; "1"; "2"; "3"; "0"; "1"; "2"] no_output
  = Returned
      (1, {| stdout := "";
             stderr := "C++ ERROR: Harus menerima 10 jawaban sebagai argumen, diterima: 11."
                       ++ endl |}).
Proof. reflexivity. Qed.

(** C4. For every run with exactly ten arguments, if [std::stoi] throws
    on some argument (it has no decimal digit after optional white space
    and an optional sign, or its value lies outside [int]), the program
    writes the parse error naming the 1-based position and the text of the
    first such argument to standard error, writes nothing to standard
    output and exits with status 1. *)
Theorem main_reports_first_parse_failure
        (prog : string) (pre post : list string) (a : string)
        (xs : list Z) (e : exception) :
  List.length (pre ++ a :: post) = 10%nat ->
  Forall2 (fun a x => stoi a = inr x) pre xs ->
  stoi a = inl e ->
  main (prog :: pre ++ a :: post) no_output
  = Returned (1, {| stdout := "";
                    stderr := msg_parse (Z.of_nat (List.length pre) + 1) a |}).
Proof.
  intros Hlen Hpre Ha.
  replace (Z.of_nat (List.length pre) + 1)
    with (Z.of_nat (S (List.length pre))) by lia.
  apply (main_parse_failure prog pre post a xs e no_output Hlen Hpre Ha).
Qed.

Lemma main_reports_first_parse_failure_witness :
  main ["logic"; "1"; "2"; "abc"; "0"; "3"; "1"; "0"; "2"; "3"; "1"] no_output
  = Returned
      (1, {| stdout := "";
             stderr := "C++ ERROR: Argumen ke-3 (abc) bukan angka valid."
                       ++ endl |}).
Proof.
  apply (main_reports_first_parse_failure "logic"
           ["1"; "2"] ["0"; "3"; "1"; "0"; "2"; "3"; "1"] "abc"
           [1; 2] invalid_argument).
  - reflexivity.
  - repeat constructor.
  - reflexivity.
Defined.

(** An argument that is not a base-10 integer but begins with one is
    not reported: main scores its numeric prefix and exits with status 0. *)
Lemma main_accepts_trailing_text :
  integer_literal "3abc" = false
  /\ main ["logic"; "1"; "2"; "3abc"; "0"; "3"; "1"; "0"; "2"; "3"; "1"] no_output
     = Returned (0, {| stdout := "10" ++ endl; stderr := "" |}).
Proof. split; reflexivity. Qed.

Example main_accepts_decimal_point :
  integer_literal "3.5" = false
  /\ main ["logic"; "1"; "2"; "3.5"; "0"; "3"; "1"; "0"; "2"; "3"; "1"] no_output
     = Returned (0, {| stdout := "10" ++ endl; stderr := "" |}).
Proof. split; reflexivity. Qed.

Example integer_literal_accepts :
  integer_literal "3" = true /\ integer_literal "-12" = true
  /\ integer_literal "+0" = true /\ integer_literal "" = false
  /\ integer_literal "abc" = false /\ integer_literal "-" = false.
Proof. repeat split; reflexivity. Qed.

(** C5. The all-zero input scores 6 and the all-three input scores 24,
    both as results of [hitung_skor] and as the line main prints. *)
Theorem boundary_scores :
  hitung_skor [0; 0; 0; 0; 0; 0; 0; 0; 0; 0] = Returned 6
  /\ hitung_skor [3; 3; 3; 3; 3; 3; 3; 3; 3; 3] = Returned 24
  /\ main ["logic"; "0"; "0"; "0"; "0"; "0"; "0"; "0"; "0"; "0"; "0"] no_output
     = Returned (0, {| stdout := "6" ++ endl; stderr := "" |})
  /\ main ["logic"; "3"; "3"; "3"; "3"; "3"; "3"; "3"; "3"; "3"; "3"] no_output
     = Returned (0, {| stdout := "24" ++ endl; stderr := "" |}).
Proof. repeat split; reflexivity. Qed.

(** C6. Every run of main ends in one of two ways: with status 0, the
    complete score of the ten parsed answers (a value in 0..30 returned by
    [hitung_skor]) on one line of standard output and nothing on standard
    error; or with status 1, nothing on standard output and a message on
    standard error. *)
Theorem main_output_all_or_nothing (argv : list string) :
  exists code w,
    main argv no_output = Returned (code, w)
    /\ ((code = 0
         /\ stderr w = ""
         /\ exists jawaban score,
              Forall2 (fun a x => stoi a = inr x) (tl argv) jawaban
              /\ hitung_skor jawaban = Returned score
              /\ 0 <= score <= 30
              /\ stdout w = show score ++ endl)
        \/ (code = 1 /\ stdout w = "" /\ stderr w <> "")).
Proof.
  destruct (main_cases argv) as [[code w] [Hmain Hres]].
  exists code, w. split; [exact Hmain|].
  inversion Hres as [Harity
                    | prog pre a post xs e Hargv Hlen Hpre Ha
                    | prog args pre v post Hargv Hlen Hargs Hpre Hv
                    | prog args xs Hargv Hlen Hargs Hall]; subst.
  - right. repeat split. apply msg_arity_not_empty.
  - right. repeat split. apply msg_parse_not_empty.
  - right. repeat split. apply msg_range_not_empty.
  - left. repeat split.
    pose proof (Forall2_length Hargs) as Hxs.
    exists xs, (spec_score xs). cbn [tl stdout].
    split; [exact Hargs|].
    split; [apply hitung_skor_valid; [lia | exact Hall]|].
    split; [|reflexivity].
    pose proof (spec_score_bounds xs Hall). lia.
Qed.

(** C7. The internal fallback branch is unreachable: for every vector of
    ten integers on which [hitung_skor] returns -1, the second pass finds
    an element outside 0..3 and returns from main with the range message;
    and no run of main leaves the internal-error message on standard
    error. *)
Theorem internal_fallback_unreachable :
  (forall (jawaban : list Z) (w : streams),
      List.length jawaban = 10%nat ->
      hitung_skor jawaban = Returned (-1) ->
      exists v,
        In v jawaban /\ (v < 0 \/ v > 3)
        /\ rescan jawaban w
           = Returned (Some 1,
                       {| stdout := stdout w;
                          stderr := stderr w ++ msg_range v |}))
  /\ (forall argv : list string,
         exists code w,
           main argv no_output = Returned (code, w)
           /\ stderr w <> msg_internal).
Proof.
  split.
  - intros jawaban w Hlen Hret.
    destruct (first_out_of_range jawaban)
      as [Hall | (pre & v & post & -> & Hpre & Hv)].
    + rewrite hitung_skor_valid in Hret by (assumption || lia).
      pose proof (spec_score_bounds jawaban Hall).
      inversion Hret. lia.
    + exists v. split; [apply in_elt|]. split; [exact Hv|].
      apply rescan_first; assumption.
  - intros argv.
    destruct (main_cases argv) as [[code w] [Hmain Hres]].
    exists code, w. split; [exact Hmain|].
    inversion Hres; subst; cbn [stderr].
    + apply msg_arity_not_internal.
    + apply msg_parse_not_internal.
    + apply msg_range_not_internal.
    + unfold msg_internal. cbn [append]. discriminate.
Qed.

Lemma internal_fallback_unreachable_witness :
  exists v,
    In v [0; 1; 2; 3; 0; -2; 2; 3; 5; 1] /\ (v < 0 \/ v > 3)
    /\ rescan [0; 1; 2; 3; 0; -2; 2; 3; 5; 1] no_output
       = Returned (Some 1,
                   {| stdout := stdout no_output;
                      stderr := stderr no_output ++ msg_range v |}).
Proof.
  apply (proj1 internal_fallback_unreachable
           [0; 1; 2; 3; 0; -2; 2; 3; 5; 1] no_output).
  - reflexivity.
  - reflexivity.
Defined.



(** C9. [hitung_skor] returns -1 if and only if some element of its
    input lies outside 0..3, and on all-valid input its result is
    non-negative, so the sentinel is never a score: on every vector of at
    most ten elements the function returns and both hold; on longer vectors
    the equivalence holds whenever a value is returned. *)
Theorem sentinel_iff_out_of_range :
  (forall jawaban : list Z,
      (List.length jawaban <= 10)%nat ->
      (hitung_skor jawaban = Returned (-1)
       <-> Exists (fun v => v < 0 \/ v > 3) jawaban)
      /\ (Forall (fun v => 0 <= v <= 3) jawaban ->
          exists r, hitung_skor jawaban = Returned r /\ 0 <= r))
  /\ (forall (jawaban : list Z) (r : Z),
         hitung_skor jawaban = Returned r ->
         (r = -1 <-> Exists (fun v => v < 0 \/ v > 3) jawaban)
         /\ (Forall (fun v => 0 <= v <= 3) jawaban -> 0 <= r)).
Proof.
  split.
  - intros jawaban Hlen. split; [split|].
    + intros Hret. rewrite hitung_skor_rest in Hret.
      apply score_rest_nonneg in Hret; [|lia].
      destruct Hret as [[Hneg _] | [_ Hex]]; [lia | exact Hex].
    + intros Hex.
      destruct (first_out_of_range jawaban)
        as [Hall | (pre & v & post & -> & Hpre & Hv)].
      * destruct (valid_not_invalid jawaban Hall Hex).
      * rewrite length_app in Hlen.
        apply hitung_skor_invalid; [lia | exact Hpre | exact Hv].
    + intros Hall. exists (spec_score jawaban). split.
      * apply hitung_skor_valid; assumption.
      * apply (spec_score_bounds jawaban Hall).
  - intros jawaban r Hret. rewrite hitung_skor_rest in Hret.
    apply score_rest_nonneg in Hret; [|lia].
    destruct Hret as [[Hr Hall] | [Hr Hex]].
    + split; [split|].
      * intros ->. lia.
      * intros Hex. destruct (valid_not_invalid jawaban Hall Hex).
      * intros _. exact Hr.
    + split; [split|].
      * intros _. exact Hex.
      * intros _. exact Hr.
      * intros Hall. destruct (valid_not_invalid jawaban Hall Hex).
Qed.

Lemma sentinel_iff_out_of_range_witness :
  (hitung_skor [0; 1; 2; 3; 4; 0; 1; 2; 3; 0] = Returned (-1)
   <-> Exists (fun v => v < 0 \/ v > 3) [0; 1; 2; 3; 4; 0; 1; 2; 3; 0])
  /\ (Forall (fun v => 0 <= v <= 3) [0; 1; 2; 3; 4; 0; 1; 2; 3; 0] ->
      exists r, hitung_skor [0; 1; 2; 3; 4; 0; 1; 2; 3; 0] = Returned r
                /\ 0 <= r).
Proof.
  apply (proj1 sentinel_iff_out_of_range [0; 1; 2; 3; 4; 0; 1; 2; 3; 0]).
  cbn [List.length]. lia.
Defined.

(** C10. [REVERSE_FLAGS] has exactly ten entries; on a vector of at most
    ten elements every position below its length is an index of the table
    and [hitung_skor] returns without an out-of-bounds access; the vector
    main builds from eleven [argv] entries has exactly ten elements, and
    no run of main has undefined behaviour. *)
Theorem reverse_flags_access_in_bounds :
  List.length REVERSE_FLAGS = 10%nat
  /\ (forall jawaban : list Z,
         (List.length jawaban <= 10)%nat ->
         (forall i, (i < List.length jawaban)%nat ->
                    exists flag, nth_error REVERSE_FLAGS i = Some flag)
         /\ exists r, hitung_skor jawaban = Returned r)
  /\ (forall (argv : list string) (w w' : streams) (jawaban : list Z),
         Z.of_nat (List.length argv) = 11 ->
         parse_loop argv (List.length argv - 1) 1 [] w
         = Returned (inr jawaban, w') ->
         List.length jawaban = 10%nat)
  /\ (forall argv : list string,
         exists res, main argv no_output = Returned res).
Proof.
  split; [reflexivity|]. split; [|split].
  - intros jawaban Hlen. split.
    + intros i Hi. eexists. apply REVERSE_FLAGS_lookup. lia.
    + destruct (first_out_of_range jawaban)
        as [Hall | (pre & v & post & -> & Hpre & Hv)].
      * eexists. apply hitung_skor_valid; assumption.
      * rewrite length_app in Hlen.
        eexists. apply hitung_skor_invalid; [lia | exact Hpre | exact Hv].
  - intros argv w w' jawaban Hargc Hparse.
    apply parse_loop_length in Hparse. cbn [List.length] in Hparse. lia.
  - intros argv. destruct (main_cases argv) as [res [Hmain _]].
    exists res. exact Hmain.
Qed.

Lemma reverse_flags_access_in_bounds_witness :
  (forall i, (i < List.length [3; 0; 1; 2; 3; 0; 1; 2; 9; 0])%nat ->
             exists flag, nth_error REVERSE_FLAGS i = Some flag)
  /\ exists r, hitung_skor [3; 0; 1; 2; 3; 0; 1; 2; 9; 0] = Returned r.
Proof.
  apply (proj1 (proj2 reverse_flags_access_in_bounds)
           [3; 0; 1; 2; 3; 0; 1; 2; 9; 0]).
  cbn [List.length]. lia.
Defined.

(** The bound of ten is needed: an eleventh valid answer makes the loop
    read past the end of the table. *)
Example hitung_skor_eleven_answers :
  hitung_skor [0; 0; 0; 0; 0; 0; 0; 0; 0; 0; 0]
  = Undefined (FlagsOutOfBounds 10).
Proof. reflexivity. Qed.

(** * Further properties of the scorer and of main *)

(** ** Auxiliary facts *)

Lemma sum_contributions_app (l1 l2 : list Z) :
  forall i,
    sum_contributions i (l1 ++ l2)
    = sum_contributions i l1 + sum_contributions (i + List.length l1) l2.
Proof.
  induction l1 as [|v l1 IH]; intros i.
  - cbn [app sum_contributions List.length]. rewrite Nat.add_0_r. lia.
  - cbn [app sum_contributions List.length].
    rewrite IH, <- Nat.add_succ_comm. lia.
Qed.

(** Reverse scoring turns the complement of an answer into the complement
    of its contribution. *)
Lemma contribution_complement (i : nat) (v : Z) :
  contribution i (3 - v) = 3 - contribution i v.
Proof.
  unfold contribution. destruct ((i =? 4) || (i =? 8))%nat; lia.
Qed.

Lemma sum_contributions_complement (l : list Z) :
  forall i,
    sum_contributions i (map (fun v => 3 - v) l)
    = 3 * Z.of_nat (List.length l) - sum_contributions i l.
Proof.
  induction l as [|v l IH]; intros i.
  - reflexivity.
  - cbn [map sum_contributions List.length].
    rewrite IH, contribution_complement. lia.
Qed.

(** Eleven valid answers in a row drive the loop past the end of the
    table, whatever follows them. *)
Lemma score_rest_past_table (pre : list Z) :
  forall i total post,
    Forall (fun v => 0 <= v <= 3) pre ->
    (i <= 10)%nat ->
    (i + List.length pre = 11)%nat ->
    0 <= total <= 3 * Z.of_nat i ->
    score_rest i (pre ++ post) total = Undefined (FlagsOutOfBounds 10).
Proof.
  induction pre as [|x pre IH]; intros i total post Hpre Hi Hlen Htot.
  - cbn [List.length] in Hlen. lia.
  - inversion Hpre as [|? ? Hx Hrest]; subst.
    cbn [List.length] in Hlen. cbn [app score_rest].
    rewrite (proj2 (out_of_range_03_false x) Hx).
    destruct (Nat.eq_dec i 10) as [-> | Hne].
    + reflexivity.
    + rewrite REVERSE_FLAGS_lookup by lia.
      rewrite score_of_valid by exact Hx.
      fold (contribution i x).
      pose proof (contribution_bounds i x Hx) as Hc.
      cbn [obind]. unfold int_add.
      rewrite in_int_small by lia.
      cbn [obind]. apply IH; [exact Hrest | lia | lia | lia].
Qed.

(** The loop does not look at what follows the first out-of-range answer. *)
Lemma score_rest_ignores_tail (pre : list Z) :
  forall i total v post post',
    v < 0 \/ v > 3 ->
    score_rest i (pre ++ v :: post) total
    = score_rest i (pre ++ v :: post') total.
Proof.
  induction pre as [|x pre IH]; intros i total v post post' Hv.
  - cbn [app score_rest].
    rewrite (proj2 (out_of_range_03_true v) Hv). reflexivity.
  - cbn [app score_rest].
    destruct (out_of_range_03 x); [reflexivity|].
    destruct (nth_error REVERSE_FLAGS i) as [flag|]; [|reflexivity].
    destruct (if flag then int_sub 3 x else Returned x) as [score|u];
      cbn [obind]; [|reflexivity].
    destruct (int_add total score) as [total'|u]; cbn [obind]; [|reflexivity].
    apply IH. exact Hv.
Qed.

Lemma Returned_inj {A : Type} (a b : A) : Returned a = Returned b -> a = b.
Proof. intros H. injection H. auto. Qed.

Lemma Forall_firstn_of {A : Type} (P : A -> Prop) (n : nat) (l : list A) :
  Forall P l -> Forall P (firstn n l).
Proof.
  intros H. rewrite <- (firstn_skipn n l) in H.
  apply Forall_app in H. exact (proj1 H).
Qed.

(** ** Short vectors *)

(** X1. On a vector of at most ten answers, all in 0..3, [hitung_skor]
    returns the sum of the contributions of the answers present, a value
    between 0 and three times their number (0 for the empty vector). *)
Theorem hitung_skor_short_vector (jawaban : list Z) :
  (List.length jawaban <= 10)%nat ->
  Forall (fun v => 0 <= v <= 3) jawaban ->
  hitung_skor jawaban = Returned (spec_score jawaban)
  /\ 0 <= spec_score jawaban <= 3 * Z.of_nat (List.length jawaban).
Proof.
  intros Hlen Hall. split.
  - apply hitung_skor_valid; assumption.
  - apply spec_score_bounds. exact Hall.
Qed.

Lemma hitung_skor_short_vector_witness :
  hitung_skor [3; 1; 2] = Returned (spec_score [3; 1; 2])
  /\ 0 <= spec_score [3; 1; 2] <= 3 * Z.of_nat (List.length [3; 1; 2]).
Proof.
  apply (hitung_skor_short_vector [3; 1; 2]).
  - cbn [List.length]. lia.
  - repeat constructor; lia.
Defined.

(** ** Undefined behaviour of the scorer *)

(** X2. [hitung_skor] has undefined behaviour exactly on the vectors that
    begin with eleven answers in 0..3, and it is then the read of
    [REVERSE_FLAGS[10]]: the scorer never overflows and never reads its
    argument out of bounds. *)
Theorem hitung_skor_undefined_iff (jawaban : list Z) (u : undefined_behaviour) :
  hitung_skor jawaban = Undefined u
  <-> u = FlagsOutOfBounds 10
      /\ exists pre post,
           jawaban = (pre ++ post)%list
           /\ List.length pre = 11%nat
           /\ Forall (fun v => 0 <= v <= 3) pre.
Proof.
  rewrite hitung_skor_rest. split.
  - intros Hund.
    destruct (first_out_of_range jawaban)
      as [Hall | (pre & v & post & Heq & Hpre & Hv)].
    + destruct (Nat.le_gt_cases (List.length jawaban) 10) as [Hle | Hgt].
      * rewrite score_rest_valid in Hund by (assumption || lia).
        discriminate.
      * assert (Hsplit : jawaban = (firstn 11 jawaban ++ skipn 11 jawaban)%list)
          by (symmetry; apply firstn_skipn).
        assert (Hlen : List.length (firstn 11 jawaban) = 11%nat)
          by (rewrite length_firstn; lia).
        assert (Hval : Forall (fun v => 0 <= v <= 3) (firstn 11 jawaban))
          by (apply Forall_firstn_of; exact Hall).
        rewrite Hsplit in Hund.
        rewrite score_rest_past_table in Hund by (assumption || lia).
        inversion Hund; subst. split; [reflexivity|].
        exists (firstn 11 jawaban), (skipn 11 jawaban). auto.
    + destruct (Nat.le_gt_cases (List.length pre) 10) as [Hle | Hgt].
      * rewrite Heq in Hund.
        rewrite score_rest_invalid in Hund by (assumption || lia).
        discriminate.
      * assert (Hsplit : pre = (firstn 11 pre ++ skipn 11 pre)%list)
          by (symmetry; apply firstn_skipn).
        assert (Hlen : List.length (firstn 11 pre) = 11%nat)
          by (rewrite length_firstn; lia).
        assert (Hval : Forall (fun v => 0 <= v <= 3) (firstn 11 pre))
          by (apply Forall_firstn_of; exact Hpre).
        assert (Hj : jawaban
                     = (firstn 11 pre ++ (skipn 11 pre ++ v :: post))%list)
          by (rewrite app_assoc, <- Hsplit; exact Heq).
        rewrite Hj in Hund.
        rewrite score_rest_past_table in Hund by (assumption || lia).
        inversion Hund; subst u. split; [reflexivity|].
        exists (firstn 11 pre), (skipn 11 pre ++ v :: post)%list. auto.
  - intros [-> (pre & post & -> & Hlen & Hpre)].
    apply score_rest_past_table; [exact Hpre | lia | lia | lia].
Qed.

Lemma hitung_skor_undefined_iff_witness :
  hitung_skor [0; 1; 2; 3; 0; 1; 2; 3; 0; 1; 2; 7]
  = Undefined (FlagsOutOfBounds 10).
Proof.
  apply (proj2 (hitung_skor_undefined_iff
                  [0; 1; 2; 3; 0; 1; 2; 3; 0; 1; 2; 7] (FlagsOutOfBounds 10))).
  split; [reflexivity|].
  exists [0; 1; 2; 3; 0; 1; 2; 3; 0; 1; 2], [7].
  split; [reflexivity|]. split; [reflexivity|].
  repeat constructor; lia.
Defined.

(** ** The early return *)

(** X3. The result of [hitung_skor] does not depend on the answers that
    follow an out-of-range answer: the loop returns at the first one it
    meets, whatever the length of the vector. *)
Theorem hitung_skor_ignores_tail (pre post post' : list Z) (v : Z) :
  v < 0 \/ v > 3 ->
  hitung_skor (pre ++ v :: post) = hitung_skor (pre ++ v :: post').
Proof.
  intros Hv. rewrite !hitung_skor_rest.
  apply score_rest_ignores_tail. exact Hv.
Qed.

Lemma hitung_skor_ignores_tail_witness :
  hitung_skor ([1; 2] ++ 9 :: [0; 0; 0; 0; 0; 0; 0])
  = hitung_skor ([1; 2] ++ 9 :: [3; -1; 8]).
Proof.
  apply (hitung_skor_ignores_tail [1; 2] [0; 0; 0; 0; 0; 0; 0] [3; -1; 8] 9).
  lia.
Defined.

(** ** How the score varies with the answers *)

(** X4. Changing one answer of a valid ten-answer vector to another valid
    answer moves the score by the difference of the two answers, upwards
    at a plain position and downwards at a reverse-scored one (a position
    whose entry in [REVERSE_FLAGS] is true). *)
Theorem hitung_skor_change_one
        (pre post : list Z) (v v' s : Z) (flag : bool) :
  List.length (pre ++ v :: post) = 10%nat ->
  Forall (fun x => 0 <= x <= 3) (pre ++ v :: post) ->
  0 <= v' <= 3 ->
  nth_error REVERSE_FLAGS (List.length pre) = Some flag ->
  hitung_skor (pre ++ v :: post) = Returned s ->
  hitung_skor (pre ++ v' :: post)
  = Returned (if flag then s - (v' - v) else s + (v' - v)).
Proof.
  intros Hlen Hall Hv' Hflag Hs.
  assert (Hall' : Forall (fun x => 0 <= x <= 3) (pre ++ v' :: post)).
  { apply Forall_app in Hall. destruct Hall as [Hpre Hrest].
    inversion Hrest; subst.
    apply Forall_app. split; [exact Hpre | constructor; assumption]. }
  assert (Hlen' : List.length (pre ++ v' :: post) = 10%nat)
    by (rewrite length_app in *; exact Hlen).
  rewrite hitung_skor_valid in Hs by (assumption || lia).
  rewrite hitung_skor_valid by (assumption || lia).
  inversion Hs as [Hsum]. f_equal.
  unfold spec_score. rewrite !sum_contributions_app.
  cbn [sum_contributions Nat.add].
  rewrite length_app in Hlen. cbn [List.length] in Hlen.
  rewrite REVERSE_FLAGS_lookup in Hflag by lia.
  inversion Hflag as [Hf]. unfold contribution.
  destruct ((List.length pre =? 4) || (List.length pre =? 8))%nat; lia.
Qed.

Lemma hitung_skor_change_one_witness :
  hitung_skor ([1; 2; 0; 3] ++ 3 :: [0; 2; 3; 3; 1])
  = Returned (if true then 14 - (3 - 1) else 14 + (3 - 1)).
Proof.
  apply (hitung_skor_change_one [1; 2; 0; 3] [0; 2; 3; 3; 1] 1 3 14 true).
  - reflexivity.
  - repeat constructor; lia.
  - lia.
  - reflexivity.
  - reflexivity.
Defined.

(** X5. Answering [3 - v] in place of [v] at every position of a valid
    ten-answer vector turns the score [s] into [30 - s]. *)
Theorem hitung_skor_complement (jawaban : list Z) (s : Z) :
  List.length jawaban = 10%nat ->
  Forall (fun v => 0 <= v <= 3) jawaban ->
  hitung_skor jawaban = Returned s ->
  hitung_skor (map (fun v => 3 - v) jawaban) = Returned (30 - s).
Proof.
  intros Hlen Hall Hs.
  rewrite hitung_skor_valid in Hs by (assumption || lia).
  inversion Hs as [Hsum].
  rewrite hitung_skor_valid.
  - f_equal. unfold spec_score.
    rewrite sum_contributions_complement, Hlen. lia.
  - rewrite length_map. lia.
  - apply Forall_map. apply (Forall_impl _ (P := fun v => 0 <= v <= 3));
      [intros a Ha; lia | exact Hall].
Qed.

Lemma hitung_skor_complement_witness :
  hitung_skor (map (fun v => 3 - v) [1; 2; 0; 3; 1; 0; 2; 3; 3; 1])
  = Returned (30 - 14).
Proof.
  apply (hitung_skor_complement [1; 2; 0; 3; 1; 0; 2; 3; 3; 1] 14).
  - reflexivity.
  - repeat constructor; lia.
  - reflexivity.
Defined.

(** X6. Among the valid ten-answer vectors exactly one scores 0, the one
    answering 0 everywhere but 3 at the two reverse-scored positions, and
    exactly one scores 30, the one answering 3 everywhere but 0 there. *)
Theorem hitung_skor_extremes (jawaban : list Z) :
  List.length jawaban = 10%nat ->
  Forall (fun v => 0 <= v <= 3) jawaban ->
  (hitung_skor jawaban = Returned 0
   <-> jawaban = [0; 0; 0; 0; 3; 0; 0; 0; 3; 0])
  /\ (hitung_skor jawaban = Returned 30
      <-> jawaban = [3; 3; 3; 3; 0; 3; 3; 3; 0; 3]).
Proof.
  intros Hlen Hall.
  rewrite hitung_skor_valid by (assumption || lia).
  do 10 (destruct jawaban as [|? jawaban]; [discriminate|]).
  destruct jawaban; [|discriminate].
  rewrite spec_score_ten.
  repeat match goal with
         | H : Forall _ (_ :: _) |- _ => inversion H; subst; clear H
         end.
  split; split; intros H.
  - apply Returned_inj in H. repeat (f_equal; try lia).
  - injection H; intros; subst. reflexivity.
  - apply Returned_inj in H. repeat (f_equal; try lia).
  - injection H; intros; subst. reflexivity.
Qed.

Lemma hitung_skor_extremes_witness :
  (hitung_skor [3; 3; 3; 3; 0; 3; 3; 3; 0; 3] = Returned 0
   <-> [3; 3; 3; 3; 0; 3; 3; 3; 0; 3] = [0; 0; 0; 0; 3; 0; 0; 0; 3; 0])
  /\ (hitung_skor [3; 3; 3; 3; 0; 3; 3; 3; 0; 3] = Returned 30
      <-> [3; 3; 3; 3; 0; 3; 3; 3; 0; 3] = [3; 3; 3; 3; 0; 3; 3; 3; 0; 3]).
Proof.
  apply (hitung_skor_extremes [3; 3; 3; 3; 0; 3; 3; 3; 0; 3]).
  - reflexivity.
  - repeat constructor; lia.
Defined.

(** X7. Every integer from 0 to 30 is the score of some valid ten-answer
    vector: the range of the scorer is exactly 0..30. *)
Theorem hitung_skor_attains (s : Z) :
  0 <= s <= 30 ->
  exists jawaban,
    List.length jawaban = 10%nat
    /\ Forall (fun v => 0 <= v <= 3) jawaban
    /\ hitung_skor jawaban = Returned s.
Proof.
  intros Hs.
  pose (c := fun t => Z.max 0 (Z.min 3 (s - t))).
  exists [c 0; c 3; c 6; c 9; 3 - c 24; c 12; c 15; c 18; 3 - c 27; c 21].
  assert (Hall : Forall (fun v => 0 <= v <= 3)
                   [c 0; c 3; c 6; c 9; 3 - c 24;
                    c 12; c 15; c 18; 3 - c 27; c 21])
    by (unfold c; repeat constructor; lia).
  split; [reflexivity|]. split; [exact Hall|].
  rewrite hitung_skor_valid by (exact Hall || (cbn [List.length]; lia)).
  rewrite spec_score_ten. f_equal. unfold c.
  assert (Hcase : s < 3 \/ 3 <= s < 6 \/ 6 <= s < 9 \/ 9 <= s < 12
                  \/ 12 <= s < 15 \/ 15 <= s < 18 \/ 18 <= s < 21
                  \/ 21 <= s < 24 \/ 24 <= s < 27 \/ 27 <= s) by lia.
  repeat (destruct Hcase as [Hcase | Hcase]); lia.
Qed.

Lemma hitung_skor_attains_witness :
  exists jawaban,
    List.length jawaban = 10%nat
    /\ Forall (fun v => 0 <= v <= 3) jawaban
    /\ hitung_skor jawaban = Returned 17.
Proof.
  apply (hitung_skor_attains 17). lia.
Defined.

(** ** When main succeeds and what it depends on *)

(** Once the ten arguments are parsed, the run continues from their
    values alone. *)
Lemma main_after_parsing (prog : string) (args : list string) (xs : list Z)
      (w : streams) :
  List.length args = 10%nat ->
  Forall2 (fun a x => stoi a = inr x) args xs ->
  main (prog :: args) w
  = (total_skor <- lift (hitung_skor xs) ;;
     if total_skor =? -1 then
       found <- rescan xs ;;
       match found with
       | Some code => ret code
       | None => cerr msg_internal ;; ret 1
       end
     else
       cout (show total_skor ++ endl) ;; ret 0)%io w.
Proof.
  intros Hlen Hargs.
  rewrite (main_ten_arguments prog _ Hlen). unfold bind at 1.
  rewrite (parse_loop_all args (prog :: args) 1 [] _ w eq_refl Hargs).
  reflexivity.
Qed.

(** X8. A run of main ends with status 0 exactly when it receives ten
    arguments after the program name, each of them parses, and each parsed
    value lies in 0..3. *)
Theorem main_succeeds_iff (argv : list string) :
  (exists w, main argv no_output = Returned (0, w))
  <-> exists prog args xs,
        argv = prog :: args
        /\ List.length args = 10%nat
        /\ Forall2 (fun a x => stoi a = inr x) args xs
        /\ Forall (fun x => 0 <= x <= 3) xs.
Proof.
  split.
  - intros [w Hw].
    destruct (main_cases argv) as [res [Hmain Hres]].
    rewrite Hmain in Hw. apply Returned_inj in Hw. subst res.
    inversion Hres as [Harity
                      | prog pre a post xs e Hargv Hlen Hpre Ha
                      | prog args pre v post Hargv Hlen Hargs Hpre Hv
                      | prog args xs Hargv Hlen Hargs Hall].
    + exists prog, args, xs. auto.
  - intros (prog & args & xs & -> & Hlen & Hargs & Hall).
    eexists. apply (main_success prog args xs no_output Hlen Hargs Hall).
Qed.

Lemma main_succeeds_iff_witness :
  exists w,
    main ["logic"; "3"; "0"; "1"; "2"; "3"; "0"; "1"; "2"; "3"; "0"] no_output
    = Returned (0, w).
Proof.
  apply (proj2 (main_succeeds_iff
                  ["logic"; "3"; "0"; "1"; "2"; "3"; "0"; "1"; "2"; "3"; "0"])).
  exists "logic", ["3"; "0"; "1"; "2"; "3"; "0"; "1"; "2"; "3"; "0"],
         [3; 0; 1; 2; 3; 0; 1; 2; 3; 0].
  split; [reflexivity|]. split; [reflexivity|].
  split; repeat constructor; lia.
Defined.

(** X9. When all ten arguments parse, what main writes and returns depends
    only on the parsed values: neither the program name nor the spelling
    of an argument (a sign, leading blanks, text after the digits) matters,
    and the range message cites the value, not the argument text. *)
Theorem main_depends_on_values
        (prog prog' : string) (args args' : list string) (xs : list Z)
        (w : streams) :
  List.length args = 10%nat ->
  Forall2 (fun a x => stoi a = inr x) args xs ->
  Forall2 (fun a x => stoi a = inr x) args' xs ->
  main (prog :: args) w = main (prog' :: args') w.
Proof.
  intros Hlen Hargs Hargs'.
  assert (Hlen' : List.length args' = 10%nat).
  { apply Forall2_length in Hargs, Hargs'. lia. }
  rewrite (main_after_parsing prog args xs w Hlen Hargs).
  rewrite (main_after_parsing prog' args' xs w Hlen' Hargs').
  reflexivity.
Qed.

Lemma main_depends_on_values_witness :
  main ["logic"; "1"; "2"; "0"; "3"; "1"; "0"; "2"; "3"; "3"; "5"] no_output
  = main ["./a.out"; "+1"; " 2"; "0x"; "3abc"; "01"; "-0"; "2"; "3"; "3.5"; "5"]
         no_output.
Proof.
  apply (main_depends_on_values "logic" "./a.out"
           ["1"; "2"; "0"; "3"; "1"; "0"; "2"; "3"; "3"; "5"]
           ["+1"; " 2"; "0x"; "3abc"; "01"; "-0"; "2"; "3"; "3.5"; "5"]
           [1; 2; 0; 3; 1; 0; 2; 3; 3; 5] no_output).
  - reflexivity.
  - repeat constructor.
  - repeat constructor.
Defined.

(** ** The sentinel on vectors of any length *)

(** X10. Whatever the length of the vector, if its first out-of-range
    answer sits at an index of at most 10, [hitung_skor] returns -1: the
    range test of an answer comes before the read of its flag, so an
    out-of-range eleventh answer is still caught. *)
Theorem hitung_skor_catches_first_invalid (pre post : list Z) (v : Z) :
  (List.length pre <= 10)%nat ->
  Forall (fun x => 0 <= x <= 3) pre ->
  v < 0 \/ v > 3 ->
  hitung_skor (pre ++ v :: post) = Returned (-1).
Proof.
  intros Hlen Hpre Hv. rewrite hitung_skor_rest.
  apply score_rest_invalid; [exact Hpre | exact Hv | lia | lia].
Qed.

Lemma hitung_skor_catches_first_invalid_witness :
  hitung_skor ([0; 1; 2; 3; 0; 1; 2; 3; 0; 1] ++ 4 :: [2; 0; 9])
  = Returned (-1).
Proof.
  apply (hitung_skor_catches_first_invalid
           [0; 1; 2; 3; 0; 1; 2; 3; 0; 1] [2; 0; 9] 4).
  - cbn [List.length]. lia.
  - repeat constructor; lia.
  - lia.
Defined.
